(** * osu.asyncio.http: the asynchronous HTTP handler and its rate limiter

    A shallow embedding of [src/osu/asyncio/http.py]:
    - [RateLimitHandler] (the sliding-window limiter: [__init__],
      [request_used], [wait], [reset], [can_request]);
    - [AsynchronousHTTPHandler] ([get_headers], [_make_request]).

    Timestamps returned by [time.perf_counter()] are modelled as integers
    (seconds); the clock is a sequence of readings [clk : nat -> Z], and
    every call of [time.perf_counter()] consumes the next reading.  The
    code is run in a state-and-exception monad whose state carries the
    index of the next clock reading, the limiter, and a trace of the
    observable effects (asyncio suspensions and network calls).  As in
    Python, an exception keeps the mutations made before it was raised. *)

From stdpp Require Import base gmap strings list.
From Stdlib Require Import ZArith Lia Sorting.Sorted.

Open Scope Z_scope.

(** ** Data *)

(** Python exceptions the code can raise. *)
Inductive exn :=
| IndexError                      (* [self.requests[0]] on an empty list *)
| ScopeException (msg : string)   (* [..exceptions.ScopeException] *)
| AttributeError                  (* [None.token] *)
| TypeError                       (* duplicate keyword argument *)
| HTTPError (status : Z)          (* [response.raise_for_status()] *)
| TransportError                  (* raised by the [requests] call itself *)
| JSONDecodeError.                (* [response.json()] *)

(** The fields of [RateLimitHandler]. *)
Record RateLimitHandler := mkRateLimitHandler {
  wait_limit : Z;
  limit : Z;
  last_request : Z;
  requests : list Z
}.

(** A network request as passed to [getattr(requests, method)(...)]. *)
Record Request := mkRequest {
  req_method : string;
  req_url : string;
  req_headers : gmap string string;
  req_data : list (string * string);
  req_stream : bool;
  req_params : list (string * string)
}.

(** The response object: its status code and the outcome of [.json()]. *)
Record Response := mkResponse {
  status_code : Z;
  json_body : option string
}.

(** Observable effects. *)
Inductive event :=
| EvYield                (* [asyncio.sleep(d)] with [d <= 0] *)
| EvSleep (d : Z)        (* [asyncio.sleep(d)] with [d > 0] *)
| EvNet (r : Request).   (* a call into [requests] *)

Record World := mkWorld {
  tick : nat;                      (* index of the next clock reading *)
  rate_limit : RateLimitHandler;   (* [self.rate_limit] *)
  trace : list event
}.

(** ** The monad *)

Definition M (A : Type) : Type := World -> (exn + A) * World.

Definition ret {A} (a : A) : M A := fun w => (inr a, w).
Definition raise {A} (e : exn) : M A := fun w => (inl e, w).
Definition bind {A B} (m : M A) (k : A -> M B) : M B :=
  fun w => match m w with
           | (inl e, w') => (inl e, w')
           | (inr a, w') => k a w'
           end.

Notation "x <- m ;; k" := (bind m (fun x => k))
  (at level 90, m at next level, right associativity).
Notation "m ;;; k" := (bind m (fun _ => k))
  (at level 90, right associativity).

Definition get_rl : M RateLimitHandler := fun w => (inr (rate_limit w), w).
Definition put_rl (r : RateLimitHandler) : M unit :=
  fun w => (inr tt, mkWorld (tick w) r (trace w)).
Definition emit (ev : event) : M unit :=
  fun w => (inr tt, mkWorld (tick w) (rate_limit w) (trace w ++ [ev])).

Definition set_requests (r : RateLimitHandler) (rs : list Z) :=
  mkRateLimitHandler (wait_limit r) (limit r) (last_request r) rs.
Definition set_last_request (r : RateLimitHandler) (t : Z) :=
  mkRateLimitHandler (wait_limit r) (limit r) t (requests r).

(** [asyncio.sleep(delay)]: a delay [<= 0] only yields to the event loop
    ([if delay <= 0: await __sleep0(); return result]). *)
Definition asyncio_sleep (d : Z) : M unit :=
  if d <=? 0 then emit EvYield else emit (EvSleep d).

Section Limiter.

(** The successive readings of [time.perf_counter()]. *)
Variable clk : nat -> Z.

Definition perf_counter : M Z :=
  fun w => (inr (clk (tick w)), mkWorld (S (tick w)) (rate_limit w) (trace w)).

(** [RateLimitHandler.__init__] *)
Definition RateLimitHandler_init (request_wait_limit limit_per_minute : Z)
  : M RateLimitHandler :=
  t <- perf_counter ;;
  ret (mkRateLimitHandler request_wait_limit limit_per_minute
         (t - request_wait_limit) []).

(** [request_used] *)
Definition request_used : M unit :=
  t <- perf_counter ;;
  r <- get_rl ;;
  put_rl (set_requests r (requests r ++ [t])) ;;;
  t' <- perf_counter ;;
  r' <- get_rl ;;
  put_rl (set_last_request r' t').

(** [wait] *)
Definition wait : M unit :=
  t <- perf_counter ;;
  r <- get_rl ;;
  let next_available_request := wait_limit r - (t - last_request r) in
  n <- (if limit r <=? Z.of_nat (length (requests r)) then
          match requests r with
          | [] => raise IndexError
          | r0 :: _ =>
              t2 <- perf_counter ;;
              ret (Z.max next_available_request (r0 + 60 - t2))
          end
        else ret next_available_request) ;;
  asyncio_sleep n.

(** The [while True] loop of [reset]; [rs] is the current value of
    [self.requests]. *)
Fixpoint reset_loop (rs : list Z) : M unit :=
  match rs with
  | [] => raise IndexError
  | r0 :: rest =>
      now <- perf_counter ;;
      if r0 + 60 <? now then
        r <- get_rl ;;
        put_rl (set_requests r rest) ;;;
        reset_loop rest
      else ret tt
  end.

(** [reset] *)
Definition reset : M unit :=
  r <- get_rl ;;
  if (length (requests r) =? 0)%nat then ret tt
  else reset_loop (requests r).

(** The property [can_request]. *)
Definition can_request : M bool :=
  reset ;;;
  now <- perf_counter ;;
  r <- get_rl ;;
  ret ((now - last_request r >=? wait_limit r)
       && (Z.of_nat (length (requests r)) <? limit r)).

End Limiter.

(** ** The handler's collaborators *)

(** Modelled from the spec: the [Scope] object of an endpoint ([path.scope],
    defined outside this file).  The spec's design notes say that the
    source "compares a scope identifier against a container": [scopes] is
    that single identifier, and [str(scope)] renders it. *)
Record Scope := mkScope { scopes : string }.

Definition Scope_str (s : Scope) : string := scopes s.

(** Modelled from the spec: the credential ([self.auth], [self.client.auth]):
    a token and the container of granted scope identifiers. *)
Record Auth := mkAuth { token : string; scope : list string }.

(** Modelled from the spec: [identifier in container], membership of one
    scope identifier in the granted scopes. *)
Definition scope_in (id : string) (granted : list string) : bool :=
  bool_decide (id ∈ granted).

(** Modelled from the spec: the endpoint descriptor ([path]):
    [path.path], [path.requires_auth], [path.scope]. *)
Record Path := mkPath { path : string; requires_auth : bool; path_scope : Scope }.

Record Client := mkClient { client_auth : option Auth }.

(** The fields [self.auth] and [self.client] of [AsynchronousHTTPHandler]
    ([self.rate_limit] lives in the [World]). *)
Record AsynchronousHTTPHandler := mkHandler {
  auth : option Auth;
  client : Client
}.

(** ** [get_headers] *)

Definition base_headers : gmap string string :=
  <["Accept" := "application/json"]> (<["Content-Type" := "application/json"]> ∅).

(** [get_headers(self, requires_auth=True, **kwargs)]: the keyword
    arguments map a header name to [None] or to [str(value)].  In the dict
    display [{..base.., **{...}}] later keys win, i.e. the comprehension is
    the left operand of stdpp's left-biased union. *)
Definition get_headers (self_auth : option Auth) (requires_auth : bool)
    (kwargs : gmap string (option string)) : exn + gmap string string :=
  let headers := omap id kwargs ∪ base_headers in
  if requires_auth then
    match self_auth with
    | None => inl AttributeError
    | Some a => inr (<["Authorization" := String.append "Bearer " (token a)]> headers)
    end
  else inr headers.

(** ** [_make_request] *)

Definition lift {A} (x : exn + A) : M A := fun w => (x, w).

(** [response.raise_for_status()] of [requests]: 4xx and 5xx raise. *)
Definition raise_for_status (resp : Response) : M unit :=
  if (400 <=? status_code resp) && (status_code resp <? 600)
  then raise (HTTPError (status_code resp)) else ret tt.

Definition response_json (resp : Response) : M string :=
  match json_body resp with
  | Some j => ret j
  | None => raise JSONDecodeError
  end.

Definition auth_message : string :=
  "You need to be authenticated to do this action.".

Definition scope_message (scope_required : Scope) : string :=
  String.append "You don't have the "
    (String.append (Scope_str scope_required)
       " scope, which is required to do this action.").

Section Handler.

Variable clk : nat -> Z.
(** [..constants.base_url] *)
Variable base_url : string.
(** [getattr(requests, method)(url, headers=, data=, stream=, params=)]. *)
Variable transport : Request -> exn + Response.

Definition call_requests (req : Request) : M Response :=
  emit (EvNet req) ;;; lift (transport req).

(** Lines 26-41 of [_make_request]: everything before the network call. *)
Definition prepare_request (self : AsynchronousHTTPHandler) (method : string)
    (p : Path) (data : option (list (string * string)))
    (headers : option (gmap string (option string))) (stream : bool)
    (kwargs : list (string * string)) : M Request :=
  let headers := default ∅ headers in
  let data := default [] data in
  (if requires_auth p && bool_decide (client_auth (client self) = None)
   then raise (ScopeException auth_message) else ret tt) ;;;
  ready <- can_request clk ;;
  (if negb ready then wait clk else ret tt) ;;;
  let scope_required := path_scope p in
  (if requires_auth p then
     match client_auth (client self) with
     | None => raise AttributeError
     | Some a =>
         if negb (scope_in (scopes scope_required) (scope a))
         then raise (ScopeException (scope_message scope_required))
         else ret tt
     end
   else ret tt) ;;;
  (* [self.get_headers(path.requires_auth, **headers)] binds [self] and
     [requires_auth]; a header of either name is a duplicate argument *)
  (if bool_decide (is_Some (headers !! "self"))
      || bool_decide (is_Some (headers !! "requires_auth"))
   then raise TypeError else ret tt) ;;;
  hs <- lift (get_headers (auth self) (requires_auth p) headers) ;;
  ret (mkRequest method (String.append base_url (path p)) hs data stream kwargs).

(** Lines 42-45 of [_make_request]: the network call and what follows. *)
Definition send_request (req : Request) : M string :=
  response <- call_requests req ;;
  request_used clk ;;;
  raise_for_status response ;;;
  response_json response.

Definition _make_request (self : AsynchronousHTTPHandler) (method : string)
    (p : Path) (data : option (list (string * string)))
    (headers : option (gmap string (option string))) (stream : bool)
    (kwargs : list (string * string)) : M string :=
  req <- prepare_request self method p data headers stream kwargs ;;
  send_request req.

End Handler.

(** ** Derived notions used in the statements *)

(** The history left by a complete pruning pass at time [now]: the stale
    prefix ([r + 60 < now]) dropped. *)
Fixpoint prune (now : Z) (rs : list Z) : list Z :=
  match rs with
  | [] => []
  | r0 :: rest => if r0 + 60 <? now then prune now rest else rs
  end.

Definition stale (now r : Z) : Prop := r + 60 < now.

Definition monotone (clk : nat -> Z) : Prop :=
  forall i j : nat, (i <= j)%nat -> clk i <= clk j.

(** The limiter's state invariant relative to the clock: the history is
    sorted oldest first, and neither an entry nor [last_request] is later
    than the next clock reading. *)
Definition history_ok (clk : nat -> Z) (w : World) : Prop :=
  StronglySorted Z.le (requests (rate_limit w)) /\
  Forall (fun r => r <= clk (tick w)) (requests (rate_limit w)) /\
  last_request (rate_limit w) <= clk (tick w).

Inductive limiter_op := Op_request_used | Op_reset | Op_can_request | Op_wait.

Definition run_op (clk : nat -> Z) (op : limiter_op) : M unit :=
  match op with
  | Op_request_used => request_used clk
  | Op_reset => reset clk
  | Op_can_request => _ <- can_request clk ;; ret tt
  | Op_wait => wait clk
  end.

(** Events other than a network call. *)
Definition not_net (e : event) : Prop := forall r : Request, e <> EvNet r.

(** ** Concrete handlers, endpoints and transports for the examples *)

Definition osu_me : Path := mkPath "/me" true (mkScope "identify").
Definition no_credential : AsynchronousHTTPHandler :=
  mkHandler None (mkClient None).
Definition osu_api : string := "https://osu.ppy.sh/api/v2".
Definition identify_credential : Auth := mkAuth "tok" ["public"; "identify"].
Definition identified : AsynchronousHTTPHandler :=
  mkHandler (Some identify_credential) (mkClient (Some identify_credential)).
Definition not_found (_ : Request) : exn + Response := inr (mkResponse 404 None).
Definition fresh_limiter : RateLimitHandler := mkRateLimitHandler 1 60 (-1) [].
Definition me_request : Request :=
  mkRequest "get" (String.append osu_api "/me")
    (<["Authorization" := "Bearer tok"]> (omap id ∅ ∪ base_headers)) [] false [].
Definition public_credential : Auth := mkAuth "tok" ["public"].
Definition public_only : AsynchronousHTTPHandler :=
  mkHandler (Some public_credential) (mkClient (Some public_credential)).
Definition ok_response (_ : Request) : exn + Response := inr (mkResponse 200 (Some "{}")).

Definition osu_beatmap : Path := mkPath "/beatmaps/1" false (mkScope "public").
Definition unreachable (_ : Request) : exn + Response := inl TransportError.


(** ** The constructor and the verb methods of [AsynchronousHTTPHandler] *)


(** [get], [post], [delete], [patch], [put]: each awaits
    [self._make_request(<verb>, path, data=data, headers=headers,
    stream=stream, **kwargs)]. *)
Module Verbs.
Section Verbs.
Variable clk : nat -> Z.
Variable base_url : string.
Variable transport : Request -> exn + Response.

Definition post (self : AsynchronousHTTPHandler) (p : Path)
    (data : option (list (string * string))) (headers : option (gmap string (option string)))
    (stream : bool) (kwargs : list (string * string)) : M string :=
  _make_request clk base_url transport self "post" p data headers stream kwargs.
Definition delete (self : AsynchronousHTTPHandler) (p : Path)
    (data : option (list (string * string))) (headers : option (gmap string (option string)))
    (stream : bool) (kwargs : list (string * string)) : M string :=
  _make_request clk base_url transport self "delete" p data headers stream kwargs.
Definition patch (self : AsynchronousHTTPHandler) (p : Path)
    (data : option (list (string * string))) (headers : option (gmap string (option string)))
    (stream : bool) (kwargs : list (string * string)) : M string :=
  _make_request clk base_url transport self "patch" p data headers stream kwargs.
Definition put (self : AsynchronousHTTPHandler) (p : Path)
    (data : option (list (string * string))) (headers : option (gmap string (option string)))
    (stream : bool) (kwargs : list (string * string)) : M string :=
  _make_request clk base_url transport self "put" p data headers stream kwargs.
End Verbs.
End Verbs.

(** ** Trace bookkeeping *)

(** An asyncio suspension of the rate gate. *)
Definition gate_event (e : event) : Prop := e = EvYield \/ exists d, e = EvSleep d.

(** What the rate gate of one call appends: at most one suspension. *)
Definition gate_trace (l : list event) : Prop :=
  (length l <= 1)%nat /\ Forall gate_event l.

(** [m] only appends events satisfying [P] (as a whole) to the trace. *)
Definition adds {A} (P : list event -> Prop) (m : M A) : Prop :=
  forall w r w', m w = (r, w') -> exists l, trace w' = trace w ++ l /\ P l.

(** [m] leaves the trace alone. *)
Definition quiet {A} (m : M A) : Prop :=
  forall w r w', m w = (r, w') -> trace w' = trace w.

(** The request [_make_request] sends for an endpoint that does not
    require authentication. *)
Definition anonymous_request (base_url method : string) (p : Path)
    (data : option (list (string * string))) (hs : gmap string (option string))
    (stream : bool) (kwargs : list (string * string)) : Request :=
  mkRequest method (String.append base_url (path p)) (omap id hs ∪ base_headers)
    (default [] data) stream kwargs.

(** A header dict without the names [self] and [requires_auth]. *)
Definition no_reserved_keys (headers : option (gmap string (option string))) : Prop :=
  default ∅ headers !! "self" = None /\ default ∅ headers !! "requires_auth" = None.

(** ** Pruning *)

Lemma reset_loop_all_stale (now : Z) (rs : list Z) (w : World) :
  Forall (stale now) rs ->
  fst (reset_loop (fun _ => now) rs w) = inl IndexError.
Proof.
  revert w; induction rs as [|r0 rest IH]; intros w Hs; [reflexivity|].
  inversion Hs as [|? ? Hr0 Hrest]; subst.
  unfold stale in Hr0; simpl.
  unfold bind at 1; simpl.
  replace (r0 + 60 <? now) with true by (symmetry; apply Z.ltb_lt; lia).
  apply IH; exact Hrest.
Qed.

Lemma reset_loop_some_fresh (now : Z) (rs : list Z) (w : World) :
  requests (rate_limit w) = rs ->
  Exists (fun r => now <= r + 60) rs ->
  exists k, reset_loop (fun _ => now) rs w =
    (inr tt, mkWorld k (set_requests (rate_limit w) (prune now rs)) (trace w)).
Proof.
  revert w; induction rs as [|r0 rest IH]; intros w Hw He;
    [inversion He|].
  simpl. unfold bind at 1; simpl.
  destruct (r0 + 60 <? now) eqn:Hlt.
  - apply Z.ltb_lt in Hlt.
    inversion He as [? ? Hr0|? ? Hrest]; subst; [lia|].
    destruct (IH (mkWorld (S (tick w))
                    (set_requests (rate_limit w) rest) (trace w)))
      as [k Hk]; [reflexivity|exact Hrest|].
    exists k. unfold bind; simpl. rewrite Hk. reflexivity.
  - exists (S (tick w)). unfold ret, set_requests; simpl.
    rewrite <- Hw. destruct (rate_limit w); reflexivity.
Qed.

(** ** C1 *)

(** C1 (code_bug).  When every entry of a non-empty history is stale,
    [reset] pops them all and then evaluates [self.requests[0]] on the
    empty list: it raises [IndexError] instead of terminating normally. *)
Theorem reset_all_stale_raises (now : Z) (w : World) :
  requests (rate_limit w) <> [] ->
  Forall (stale now) (requests (rate_limit w)) ->
  fst (reset (fun _ => now) w) = inl IndexError.
Proof.
  intros Hne Hs. unfold reset, bind, get_rl; cbn -[reset_loop length].
  replace ((length (requests (rate_limit w)) =? 0)%nat) with false
    by (destruct (requests (rate_limit w)); [congruence|reflexivity]).
  apply reset_loop_all_stale; exact Hs.
Qed.

Lemma reset_all_stale_raises_witness :
  requests (rate_limit (mkWorld 0 (mkRateLimitHandler 1 60 0 [0]) [])) <> [] /\
  Forall (stale 61) (requests (rate_limit (mkWorld 0 (mkRateLimitHandler 1 60 0 [0]) []))) /\
  fst (reset (fun _ => 61) (mkWorld 0 (mkRateLimitHandler 1 60 0 [0]) [])) = inl IndexError.
Proof.
  assert (H1 : requests (rate_limit (mkWorld 0 (mkRateLimitHandler 1 60 0 [0]) [])) <> [])
    by discriminate.
  assert (H2 : Forall (stale 61) (requests (rate_limit (mkWorld 0 (mkRateLimitHandler 1 60 0 [0]) []))))
    by (simpl; constructor; [unfold stale; lia | constructor]).
  split; [exact H1|]. split; [exact H2|].
  exact (reset_all_stale_raises 61 _ H1 H2).
Defined.

Lemma reset_some_fresh (now : Z) (w : World) :
  requests (rate_limit w) = [] \/
  Exists (fun r => now <= r + 60) (requests (rate_limit w)) ->
  exists k, reset (fun _ => now) w =
    (inr tt, mkWorld k (set_requests (rate_limit w) (prune now (requests (rate_limit w))))
               (trace w)).
Proof.
  intros H. unfold reset, bind, get_rl; cbn -[reset_loop length].
  destruct (requests (rate_limit w)) as [|r0 rs] eqn:E.
  - exists (tick w). simpl. unfold ret, set_requests.
    destruct w as [t [a b c d] tr]; simpl in *; subst; reflexivity.
  - destruct H as [H|H]; [discriminate|].
    apply reset_loop_some_fresh; assumption.
Qed.

(** ** C4 *)

(** C4 (code_bug).  After a minute without requests the only history entry
    is stale; [can_request] raises [IndexError] (through [reset]) where the
    claim expects [true]: [100 - 0 >= 1] and no entry is left in the window. *)
Theorem can_request_after_idle_raises :
  fst (can_request (fun _ => 100) (mkWorld 0 (mkRateLimitHandler 1 60 0 [0]) []))
  = inl IndexError.
Proof. reflexivity. Qed.

(** Whenever the pruning pass ends normally (empty history, or some entry
    still inside the window) [can_request] prunes the stale prefix and
    answers [elapsed >= wait_limit and len(remaining) < limit]. *)
Theorem can_request_decision (now : Z) (w : World) :
  requests (rate_limit w) = [] \/
  Exists (fun r => now <= r + 60) (requests (rate_limit w)) ->
  exists k, can_request (fun _ => now) w =
    (inr ((now - last_request (rate_limit w) >=? wait_limit (rate_limit w))
          && (Z.of_nat (length (prune now (requests (rate_limit w)))) <? limit (rate_limit w))),
     mkWorld k (set_requests (rate_limit w) (prune now (requests (rate_limit w)))) (trace w)).
Proof.
  intros H. destruct (reset_some_fresh now w H) as [k Hk].
  exists (S k). unfold can_request, bind at 1. rewrite Hk. reflexivity.
Qed.

Lemma can_request_decision_witness :
  (requests (rate_limit (mkWorld 0 (mkRateLimitHandler 1 60 0 [0; 50]) [])) = [] \/
   Exists (fun r => 100 <= r + 60)
     (requests (rate_limit (mkWorld 0 (mkRateLimitHandler 1 60 0 [0; 50]) [])))) /\
  exists k, can_request (fun _ => 100) (mkWorld 0 (mkRateLimitHandler 1 60 0 [0; 50]) []) =
    (inr true, mkWorld k (mkRateLimitHandler 1 60 0 [50]) []).
Proof.
  assert (H : requests (rate_limit (mkWorld 0 (mkRateLimitHandler 1 60 0 [0; 50]) [])) = [] \/
   Exists (fun r => 100 <= r + 60)
     (requests (rate_limit (mkWorld 0 (mkRateLimitHandler 1 60 0 [0; 50]) []))))
    by (right; simpl; apply Exists_cons_tl; constructor; lia).
  split; [exact H|].
  exact (can_request_decision 100 _ H).
Defined.

(** ** C10 *)

(** C10.  A freshly constructed limiter ([last_request] is the construction
    time minus [wait_limit], the history is empty) with [limit >= 1]
    answers [can_request = True] at once, for any monotone clock. *)
Theorem init_can_request (clk : nat -> Z) (request_wait_limit limit_per_minute : Z)
    (w : World) :
  monotone clk -> 1 <= limit_per_minute ->
  fst ((rl <- RateLimitHandler_init clk request_wait_limit limit_per_minute ;;
        put_rl rl ;;; can_request clk) w) = inr true.
Proof.
  intros Hm Hl. cbn.
  assert (clk (tick w) <= clk (S (tick w))) by (apply Hm; lia).
  f_equal. apply andb_true_intro; split.
  - apply Z.geb_le; lia.
  - apply Z.ltb_lt; lia.
Qed.

Lemma init_can_request_witness :
  monotone (fun _ => 0) /\ 1 <= 60 /\
  fst ((rl <- RateLimitHandler_init (fun _ => 0) 1 60 ;;
        put_rl rl ;;; can_request (fun _ => 0)) (mkWorld 0 (mkRateLimitHandler 0 0 0 []) []))
  = inr true.
Proof.
  assert (Hm : monotone (fun _ => 0)) by (intros i j _; lia).
  assert (Hl : 1 <= 60) by lia.
  split; [exact Hm|]. split; [exact Hl|].
  exact (init_can_request (fun _ => 0) 1 60 _ Hm Hl).
Defined.

(** ** C6 *)

(** C6.  An endpoint that requires authentication, called while the client
    has no credential, fails with the authentication [ScopeException]
    before anything else happens: no clock reading, no limiter mutation,
    no suspension and no network call (the world is returned unchanged). *)
Theorem make_request_unauthenticated (clk : nat -> Z) (base_url : string)
    (transport : Request -> exn + Response) (self : AsynchronousHTTPHandler)
    (method : string) (p : Path) (data : option (list (string * string)))
    (headers : option (gmap string (option string))) (stream : bool)
    (kwargs : list (string * string)) (w : World) :
  requires_auth p = true -> client_auth (client self) = None ->
  _make_request clk base_url transport self method p data headers stream kwargs w
  = (inl (ScopeException auth_message), w).
Proof.
  intros Hp Hc. unfold _make_request, prepare_request, bind at 1 2.
  rewrite Hp, Hc. reflexivity.
Qed.

Lemma make_request_unauthenticated_witness :
  requires_auth osu_me = true /\ client_auth (client no_credential) = None /\
  _make_request (fun _ => 0) "https://osu.ppy.sh/api/v2"
    (fun _ => inr (mkResponse 200 (Some "{}"))) no_credential "get" osu_me
    None None false [] (mkWorld 0 (mkRateLimitHandler 1 60 0 []) [])
  = (inl (ScopeException auth_message), mkWorld 0 (mkRateLimitHandler 1 60 0 []) []).
Proof.
  assert (H1 : requires_auth osu_me = true) by reflexivity.
  assert (H2 : client_auth (client no_credential) = None) by reflexivity.
  split; [exact H1|]. split; [exact H2|].
  exact (make_request_unauthenticated _ _ _ _ _ _ _ _ _ _ _ H1 H2).
Defined.

(** ** C7 *)

(** C7.  [get_headers] with a credential: a header is the caller's value
    when the caller gave a non-[None] one, the base [Content-Type]/[Accept]
    value otherwise; with [requires_auth], [Authorization] is
    ["Bearer " + token] whatever the caller passed. *)
Theorem get_headers_merge (a : Auth) (requires_auth : bool)
    (kwargs : gmap string (option string)) :
  exists hs, get_headers (Some a) requires_auth kwargs = inr hs /\
  forall k : string, hs !! k =
    if requires_auth && bool_decide (k = "Authorization")
    then Some (String.append "Bearer " (token a))
    else match kwargs !! k with
         | Some (Some v) => Some v
         | _ => base_headers !! k
         end.
Proof.
  destruct requires_auth; (eexists; split; [reflexivity|]); intros k; simpl.
  - rewrite lookup_insert. case_decide as Hk.
    + subst k. rewrite bool_decide_eq_true_2 by reflexivity. reflexivity.
    + rewrite bool_decide_eq_false_2 by congruence.
    rewrite lookup_union, lookup_omap.
    destruct (kwargs !! k) as [[v|]|]; simpl;
      [|destruct (base_headers !! k); reflexivity|destruct (base_headers !! k); reflexivity].
    destruct (base_headers !! k); reflexivity.
  - rewrite lookup_union, lookup_omap.
    destruct (kwargs !! k) as [[v|]|]; simpl; destruct (base_headers !! k); reflexivity.
Qed.

(** ** C5 *)

(** C5.  With [limit >= 1], [wait] never raises and leaves the limiter
    unchanged.  It sleeps for [wait_limit - (now - last_request)], raised to
    at least [requests[0] + 60 - now] when the history holds [limit] entries
    or more ([now] is the clock reading taken at each use); a delay [<= 0] is
    a bare yield of [asyncio.sleep], not an error. *)
Theorem wait_duration (clk : nat -> Z) (w : World) :
  1 <= limit (rate_limit w) ->
  let r := rate_limit w in
  let first := wait_limit r - (clk (tick w) - last_request r) in
  let d := if Z.of_nat (length (requests r)) <? limit r then first
           else Z.max first (hd 0 (requests r) + 60 - clk (S (tick w))) in
  exists k, wait clk w =
    (inr tt, mkWorld k r (trace w ++ [if d <=? 0 then EvYield else EvSleep d])).
Proof.
  intros Hl r first d. subst r first d.
  destruct w as [t r tr]; simpl in *.
  unfold wait, bind, perf_counter, get_rl; simpl.
  destruct (Z.of_nat (length (requests r)) <? limit r) eqn:Hlt.
  - apply Z.ltb_lt in Hlt.
    replace (limit r <=? Z.of_nat (length (requests r))) with false
      by (symmetry; apply Z.leb_gt; lia).
    exists (S t). unfold ret, asyncio_sleep, emit; simpl.
    destruct (_ <=? 0); reflexivity.
  - apply Z.ltb_ge in Hlt.
    replace (limit r <=? Z.of_nat (length (requests r))) with true
      by (symmetry; apply Z.leb_le; lia).
    destruct (requests r) as [|r0 rs] eqn:E; [simpl in Hlt; lia|].
    exists (S (S t)). unfold ret, asyncio_sleep, emit; simpl.
    destruct (_ <=? 0); reflexivity.
Qed.

Lemma wait_duration_witness :
  1 <= limit (rate_limit (mkWorld 0 (mkRateLimitHandler 1 2 10 [5; 10]) [])) /\
  exists k, wait (fun _ => 10) (mkWorld 0 (mkRateLimitHandler 1 2 10 [5; 10]) []) =
    (inr tt, mkWorld k (mkRateLimitHandler 1 2 10 [5; 10]) [EvSleep 55]).
Proof.
  assert (Hl : 1 <= limit (rate_limit (mkWorld 0 (mkRateLimitHandler 1 2 10 [5; 10]) [])))
    by (simpl; lia).
  split; [exact Hl|].
  exact (wait_duration (fun _ => 10) _ Hl).
Defined.

(** ** C8 *)

(** C8.  Once the request is prepared and [requests] answers with a
    response, [request_used] runs exactly once before [raise_for_status]:
    the history gains exactly one entry (and [last_request] is updated)
    even when the status is an HTTP error, which is then raised. *)
Theorem response_recorded_once (clk : nat -> Z) (base_url : string)
    (transport : Request -> exn + Response) (self : AsynchronousHTTPHandler)
    (method : string) (p : Path) (data : option (list (string * string)))
    (headers : option (gmap string (option string))) (stream : bool)
    (kwargs : list (string * string)) (w w1 : World) (req : Request) (resp : Response) :
  prepare_request clk base_url self method p data headers stream kwargs w = (inr req, w1) ->
  transport req = inr resp ->
  let '(res, w2) :=
    _make_request clk base_url transport self method p data headers stream kwargs w in
  requests (rate_limit w2) = requests (rate_limit w1) ++ [clk (tick w1)] /\
  last_request (rate_limit w2) = clk (S (tick w1)) /\
  trace w2 = trace w1 ++ [EvNet req] /\
  (400 <= status_code resp < 600 -> res = inl (HTTPError (status_code resp))).
Proof.
  intros Hprep Htr.
  unfold _make_request, bind at 1. rewrite Hprep.
  unfold send_request, call_requests, bind, emit, lift. rewrite Htr.
  unfold request_used, bind, perf_counter, get_rl, put_rl; simpl.
  unfold raise_for_status.
  destruct ((400 <=? status_code resp) && (status_code resp <? 600)) eqn:Hs.
  - simpl. repeat split; reflexivity.
  - unfold ret, response_json. simpl.
    apply andb_false_iff in Hs.
    assert (Hr : ~ (400 <= status_code resp < 600))
      by (destruct Hs as [Hs|Hs]; [apply Z.leb_gt in Hs|apply Z.ltb_ge in Hs]; lia).
    destruct (json_body resp); simpl; (repeat split; try reflexivity);
      intros H; contradiction.
Qed.

Lemma response_recorded_once_witness :
  prepare_request (fun _ => 0) osu_api identified "get" osu_me None None false []
    (mkWorld 0 fresh_limiter []) = (inr me_request, mkWorld 1 fresh_limiter []) /\
  not_found me_request = inr (mkResponse 404 None) /\
  let '(res, w2) :=
    _make_request (fun _ => 0) osu_api not_found identified "get" osu_me None None false []
      (mkWorld 0 fresh_limiter []) in
  requests (rate_limit w2) = requests (rate_limit (mkWorld 1 fresh_limiter [])) ++ [0] /\
  last_request (rate_limit w2) = 0 /\
  trace w2 = trace (mkWorld 1 fresh_limiter []) ++ [EvNet me_request] /\
  (400 <= 404 < 600 -> res = inl (HTTPError 404)).
Proof.
  assert (H1 : prepare_request (fun _ => 0) osu_api identified "get" osu_me None None false []
    (mkWorld 0 fresh_limiter []) = (inr me_request, mkWorld 1 fresh_limiter []))
    by reflexivity.
  assert (H2 : not_found me_request = inr (mkResponse 404 None)) by reflexivity.
  split; [exact H1|]. split; [exact H2|].
  exact (response_recorded_once (fun _ => 0) osu_api not_found identified "get" osu_me
           None None false [] _ _ _ _ H1 H2).
Defined.

(** ** C2 *)

(** C2 (counterexample).  The scope check comes after the rate gate: a
    client holding only [public], calling [/me] (scope [identify]) right
    after a request ([last_request = now], [wait_limit = 1]), first sleeps
    one second in [wait] and only then fails with the scope exception. *)
Theorem scope_failure_suspends_first :
  let '(res, w') :=
    _make_request (fun _ => 0) osu_api ok_response public_only "get" osu_me
      None None false [] (mkWorld 0 (mkRateLimitHandler 1 60 0 []) []) in
  res = inl (ScopeException (scope_message (mkScope "identify"))) /\
  trace w' = [EvSleep 1].
Proof. vm_compute. split; reflexivity. Qed.

(** C2 (amended).  For an endpoint requiring authentication, the
    credential check runs before the rate gate: without a credential the
    call fails with the world untouched (no [can_request], no [wait]).  The
    scope check runs once, after the rate gate: when [can_request] answers
    [False] and [wait] returns, a call lacking the scope fails with the
    scope exception in the world [wait] left, suspension included. *)
Theorem check_order (clk : nat -> Z) (base_url : string)
    (transport : Request -> exn + Response) (self : AsynchronousHTTPHandler)
    (method : string) (p : Path) (data : option (list (string * string)))
    (headers : option (gmap string (option string))) (stream : bool)
    (kwargs : list (string * string)) (w : World) :
  requires_auth p = true ->
  (client_auth (client self) = None ->
   _make_request clk base_url transport self method p data headers stream kwargs w
   = (inl (ScopeException auth_message), w)) /\
  (forall (a : Auth) (w1 w2 : World),
   client_auth (client self) = Some a ->
   scope_in (scopes (path_scope p)) (scope a) = false ->
   can_request clk w = (inr false, w1) ->
   wait clk w1 = (inr tt, w2) ->
   _make_request clk base_url transport self method p data headers stream kwargs w
   = (inl (ScopeException (scope_message (path_scope p))), w2)).
Proof.
  intros Hp. split.
  - intros Hc. unfold _make_request, prepare_request, bind at 1 2.
    rewrite Hp, Hc. reflexivity.
  - intros a w1 w2 Hc Hs Hcan Hwait.
    unfold _make_request, prepare_request, bind.
    rewrite Hp, Hc. simpl. unfold ret. rewrite Hcan. simpl. rewrite Hwait.
    rewrite Hs. reflexivity.
Qed.

Lemma check_order_witness :
  requires_auth osu_me = true /\
  client_auth (client public_only) = Some public_credential /\
  scope_in (scopes (path_scope osu_me)) (scope public_credential) = false /\
  can_request (fun _ => 0) (mkWorld 0 (mkRateLimitHandler 1 60 0 []) [])
    = (inr false, mkWorld 1 (mkRateLimitHandler 1 60 0 []) []) /\
  wait (fun _ => 0) (mkWorld 1 (mkRateLimitHandler 1 60 0 []) [])
    = (inr tt, mkWorld 2 (mkRateLimitHandler 1 60 0 []) [EvSleep 1]) /\
  _make_request (fun _ => 0) osu_api ok_response public_only "get" osu_me
    None None false [] (mkWorld 0 (mkRateLimitHandler 1 60 0 []) [])
  = (inl (ScopeException (scope_message (path_scope osu_me))),
     mkWorld 2 (mkRateLimitHandler 1 60 0 []) [EvSleep 1]).
Proof.
  assert (H1 : requires_auth osu_me = true) by reflexivity.
  assert (H2 : client_auth (client public_only) = Some public_credential) by reflexivity.
  assert (H3 : scope_in (scopes (path_scope osu_me)) (scope public_credential) = false)
    by (vm_compute; reflexivity).
  assert (H4 : can_request (fun _ => 0) (mkWorld 0 (mkRateLimitHandler 1 60 0 []) [])
    = (inr false, mkWorld 1 (mkRateLimitHandler 1 60 0 []) [])) by reflexivity.
  assert (H5 : wait (fun _ => 0) (mkWorld 1 (mkRateLimitHandler 1 60 0 []) [])
    = (inr tt, mkWorld 2 (mkRateLimitHandler 1 60 0 []) [EvSleep 1])) by reflexivity.
  split; [exact H1|]. split; [exact H2|]. split; [exact H3|].
  split; [exact H4|]. split; [exact H5|].
  exact (proj2 (check_order (fun _ => 0) osu_api ok_response public_only "get" osu_me
           None None false [] _ H1) public_credential _ _ H2 H3 H4 H5).
Defined.

(** ** C3 *)

(** C3 (code_bug).  The rate gate runs before the scope check, and its
    pruning pass raises [IndexError] when the whole history is stale (the
    defect of C1): a client lacking [identify] that calls [/me] a minute
    and more after its last request gets [IndexError], not the scope
    exception. *)
Theorem missing_scope_after_idle_raises :
  fst (_make_request (fun _ => 100) osu_api ok_response public_only "get" osu_me
         None None false [] (mkWorld 0 (mkRateLimitHandler 1 60 0 [0]) []))
  = inl IndexError.
Proof. reflexivity. Qed.

(** ** C9 *)

Lemma StronglySorted_snoc (l : list Z) (x : Z) :
  StronglySorted Z.le l -> Forall (fun r => r <= x) l ->
  StronglySorted Z.le (l ++ [x]).
Proof.
  induction l as [|a l IH]; intros Hs Hf; simpl.
  - constructor; constructor.
  - inversion Hs as [|? ? Hs' Ha]; subst. inversion Hf as [|? ? Hax Hf']; subst.
    constructor; [apply IH; assumption|].
    apply Forall_app; split; [assumption|]. constructor; [lia|constructor].
Qed.

Section Invariant.

Variable clk : nat -> Z.
Hypothesis clk_monotone : monotone clk.

Lemma history_ok_later (w : World) (n : nat) (tr : list event) :
  history_ok clk w -> (tick w <= n)%nat ->
  history_ok clk (mkWorld n (rate_limit w) tr).
Proof.
  intros [Hs [Hf Hl]] Hn. assert (clk (tick w) <= clk n) by (apply clk_monotone; lia).
  split; [exact Hs|]. split; simpl.
  - eapply Forall_impl; [exact Hf|]. simpl; intros; lia.
  - lia.
Qed.

Lemma reset_loop_ok (rs : list Z) (w w' : World) (res : exn + unit) :
  requests (rate_limit w) = rs -> history_ok clk w ->
  reset_loop clk rs w = (res, w') ->
  history_ok clk w' /\ last_request (rate_limit w') = last_request (rate_limit w) /\
  (tick w <= tick w')%nat.
Proof.
  revert w; induction rs as [|r0 rest IH]; intros w Hw Hok Hrun.
  - simpl in Hrun; inversion Hrun; subst. split; [assumption|split; reflexivity].
  - simpl in Hrun. unfold bind at 1, perf_counter in Hrun; simpl in Hrun.
    destruct (r0 + 60 <? clk (tick w)).
    + unfold bind, get_rl, put_rl in Hrun; simpl in Hrun.
      destruct Hok as [Hs [Hf Hl]]. rewrite Hw in Hs, Hf.
      inversion Hs as [|? ? Hs' _]; subst. inversion Hf as [|? ? _ Hf']; subst.
      assert (clk (tick w) <= clk (S (tick w))) by (apply clk_monotone; lia).
      assert (Hok1 : history_ok clk
                (mkWorld (S (tick w)) (set_requests (rate_limit w) rest) (trace w))).
      { split; [exact Hs'|]. split; simpl.
        - eapply Forall_impl; [exact Hf'|]. simpl; intros; lia.
        - lia. }
      destruct (IH _ (eq_refl : requests (rate_limit (mkWorld (S (tick w))
                  (set_requests (rate_limit w) rest) (trace w))) = rest) Hok1 Hrun)
        as [Hok' [Hlast Htick]].
      simpl in Hlast, Htick. split; [exact Hok'|]. split; [exact Hlast|lia].
    + unfold ret in Hrun; inversion Hrun; subst.
      split; [apply history_ok_later; [assumption|lia]|]. split; simpl; lia.
Qed.

Lemma reset_ok (w w' : World) (res : exn + unit) :
  history_ok clk w -> reset clk w = (res, w') ->
  history_ok clk w' /\ last_request (rate_limit w') = last_request (rate_limit w) /\
  (tick w <= tick w')%nat.
Proof.
  intros Hok Hrun. unfold reset, bind at 1, get_rl in Hrun; simpl in Hrun.
  destruct ((length (requests (rate_limit w)) =? 0)%nat).
  - unfold ret in Hrun; inversion Hrun; subst. split; [assumption|split; reflexivity].
  - eapply reset_loop_ok; [reflexivity|exact Hok|exact Hrun].
Qed.

Lemma request_used_ok (w w' : World) (res : exn + unit) :
  history_ok clk w -> request_used clk w = (res, w') ->
  history_ok clk w' /\ last_request (rate_limit w) <= last_request (rate_limit w') /\
  (tick w <= tick w')%nat.
Proof.
  intros [Hs [Hf Hl]] Hrun.
  unfold request_used, bind, perf_counter, get_rl, put_rl in Hrun; simpl in Hrun.
  inversion Hrun; subst; clear Hrun; simpl.
  assert (clk (tick w) <= clk (S (tick w))) by (apply clk_monotone; lia).
  assert (clk (S (tick w)) <= clk (S (S (tick w)))) by (apply clk_monotone; lia).
  split; [|split; lia].
  split; [|split]; simpl.
  - apply StronglySorted_snoc; assumption.
  - apply Forall_app; split.
    + eapply Forall_impl; [exact Hf|]. simpl; intros; lia.
    + constructor; [lia|constructor].
  - lia.
Qed.

Lemma can_request_ok (w w' : World) (res : exn + unit) :
  history_ok clk w -> (_ <- can_request clk ;; ret tt) w = (res, w') ->
  history_ok clk w' /\ last_request (rate_limit w') = last_request (rate_limit w) /\
  (tick w <= tick w')%nat.
Proof.
  intros Hok Hrun. unfold can_request, bind at 1 2 in Hrun.
  destruct (reset clk w) as [r1 w1] eqn:E.
  destruct (reset_ok _ _ _ Hok E) as [Hok1 [Hl1 Ht1]].
  destruct r1 as [e|[]].
  - inversion Hrun; subst. split; [exact Hok1|split; assumption].
  - unfold bind, perf_counter, get_rl, ret in Hrun; simpl in Hrun.
    inversion Hrun; subst.
    split; [apply history_ok_later; [exact Hok1|lia]|]. split; simpl; [exact Hl1|lia].
Qed.

Lemma wait_ok (w w' : World) (res : exn + unit) :
  history_ok clk w -> wait clk w = (res, w') ->
  history_ok clk w' /\ rate_limit w' = rate_limit w /\ (tick w <= tick w')%nat.
Proof.
  intros Hok Hrun. unfold wait, bind, perf_counter, get_rl in Hrun; simpl in Hrun.
  destruct (limit (rate_limit w) <=? Z.of_nat (length (requests (rate_limit w)))).
  - destruct (requests (rate_limit w)) as [|r0 rs].
    + unfold raise in Hrun; inversion Hrun; subst.
      split; [apply history_ok_later; [exact Hok|lia]|]. split; simpl; [reflexivity|lia].
    + unfold ret, asyncio_sleep, emit in Hrun; simpl in Hrun.
      destruct (_ <=? 0); inversion Hrun; subst;
        (split; [apply history_ok_later; [exact Hok|simpl; lia]|]; split; simpl;
         [reflexivity|lia]).
  - unfold ret, asyncio_sleep, emit in Hrun; simpl in Hrun.
    destruct (_ <=? 0); inversion Hrun; subst;
      (split; [apply history_ok_later; [exact Hok|simpl; lia]|]; split; simpl;
       [reflexivity|lia]).
Qed.

End Invariant.

(** C9.  Against a monotone clock, every limiter operation ([request_used],
    [reset], [can_request], [wait]), whether it returns or raises, keeps
    the history sorted oldest first with no entry and no [last_request]
    ahead of the clock, and never decreases [last_request]. *)
Theorem limiter_ops_preserve (clk : nat -> Z) (op : limiter_op) (w w' : World)
    (res : exn + unit) :
  monotone clk -> history_ok clk w -> run_op clk op w = (res, w') ->
  history_ok clk w' /\ last_request (rate_limit w) <= last_request (rate_limit w').
Proof.
  intros Hm Hok Hrun. destruct op; simpl in Hrun.
  - destruct (request_used_ok clk Hm _ _ _ Hok Hrun) as [H1 [H2 _]]. split; assumption.
  - destruct (reset_ok clk Hm _ _ _ Hok Hrun) as [H1 [H2 _]]. split; [assumption|lia].
  - destruct (can_request_ok clk Hm _ _ _ Hok Hrun) as [H1 [H2 _]]. split; [assumption|lia].
  - destruct (wait_ok clk Hm _ _ _ Hok Hrun) as [H1 [H2 _]].
    split; [assumption|rewrite H2; lia].
Qed.

(** The constructor establishes the invariant when [wait_limit >= 0]. *)
Lemma init_history_ok (clk : nat -> Z) (request_wait_limit limit_per_minute : Z)
    (w w' : World) :
  monotone clk -> 0 <= request_wait_limit ->
  (rl <- RateLimitHandler_init clk request_wait_limit limit_per_minute ;; put_rl rl) w
  = (inr tt, w') ->
  history_ok clk w'.
Proof.
  intros Hm Hw Hrun. cbn in Hrun. inversion Hrun; subst; clear Hrun.
  assert (clk (tick w) <= clk (S (tick w))) by (apply Hm; lia).
  split; [constructor|]. split; [constructor|]. simpl; lia.
Qed.

Lemma limiter_ops_preserve_witness :
  monotone (fun _ => 5) /\
  history_ok (fun _ => 5) (mkWorld 0 (mkRateLimitHandler 1 60 3 [1; 3]) []) /\
  run_op (fun _ => 5) Op_request_used (mkWorld 0 (mkRateLimitHandler 1 60 3 [1; 3]) [])
    = (inr tt, mkWorld 2 (mkRateLimitHandler 1 60 5 [1; 3; 5]) []) /\
  history_ok (fun _ => 5) (mkWorld 2 (mkRateLimitHandler 1 60 5 [1; 3; 5]) []) /\
  3 <= 5.
Proof.
  assert (Hm : monotone (fun _ => 5)) by (intros i j _; lia).
  assert (Hok : history_ok (fun _ => 5) (mkWorld 0 (mkRateLimitHandler 1 60 3 [1; 3]) [])).
  { split; [|split; simpl].
    - repeat constructor; simpl; lia.
    - repeat constructor; lia.
    - lia. }
  assert (Hrun : run_op (fun _ => 5) Op_request_used (mkWorld 0 (mkRateLimitHandler 1 60 3 [1; 3]) [])
    = (inr tt, mkWorld 2 (mkRateLimitHandler 1 60 5 [1; 3; 5]) [])) by reflexivity.
  split; [exact Hm|]. split; [exact Hok|]. split; [exact Hrun|].
  exact (limiter_ops_preserve (fun _ => 5) Op_request_used _ _ _ Hm Hok Hrun).
Defined.

(** ** What the rate gate can do to an invocation *)

Lemma bind_assoc_at {A B C} (m : M A) (k : A -> M B) (h : B -> M C) (w : World) :
  bind (bind m k) h w = bind m (fun a => bind (k a) h) w.
Proof. unfold bind. destruct (m w) as [[e|a] w1]; reflexivity. Qed.

Lemma bind_inl_at {A B} (m : M A) (k : A -> M B) (w : World) (e : exn) (w1 : World) :
  m w = (inl e, w1) -> bind m k w = (inl e, w1).
Proof. intros H. unfold bind. rewrite H. reflexivity. Qed.

Lemma bind_inr_at {A B} (m : M A) (k : A -> M B) (w : World) (a : A) (w1 : World) :
  m w = (inr a, w1) -> bind m k w = k a w1.
Proof. intros H. unfold bind. rewrite H. reflexivity. Qed.

Lemma reset_loop_outcome (clk : nat -> Z) (rs : list Z) (w w' : World) (res : exn + unit) :
  reset_loop clk rs w = (res, w') ->
  trace w' = trace w /\ (res = inl IndexError \/ res = inr tt).
Proof.
  revert w; induction rs as [|r0 rest IH]; intros w Hrun; simpl in Hrun.
  - inversion Hrun; subst. split; [reflexivity|left; reflexivity].
  - unfold bind at 1, perf_counter in Hrun; simpl in Hrun.
    destruct (r0 + 60 <? clk (tick w)).
    + unfold bind, get_rl, put_rl in Hrun; simpl in Hrun.
      destruct (IH _ Hrun) as [Ht Hr]. split; [exact Ht|exact Hr].
    + inversion Hrun; subst. split; [reflexivity|right; reflexivity].
Qed.

Lemma can_request_outcome (clk : nat -> Z) (w w' : World) (res : exn + bool) :
  can_request clk w = (res, w') ->
  trace w' = trace w /\ (res = inl IndexError \/ exists b, res = inr b).
Proof.
  intros Hrun. unfold can_request, reset, bind at 1 2, get_rl in Hrun; simpl in Hrun.
  destruct ((length (requests (rate_limit w)) =? 0)%nat).
  - unfold ret, bind, perf_counter, get_rl in Hrun; simpl in Hrun.
    inversion Hrun; subst. split; [reflexivity|right; eexists; reflexivity].
  - destruct (reset_loop clk (requests (rate_limit w)) w) as [r1 w1] eqn:E.
    destruct (reset_loop_outcome _ _ _ _ _ E) as [Ht [He|He]]; subst r1.
    + inversion Hrun; subst. split; [exact Ht|left; reflexivity].
    + unfold bind, perf_counter, get_rl, ret in Hrun; simpl in Hrun.
      inversion Hrun; subst. split; [exact Ht|right; eexists; reflexivity].
Qed.

Lemma wait_outcome (clk : nat -> Z) (w w' : World) (res : exn + unit) :
  wait clk w = (res, w') ->
  (res = inl IndexError \/ res = inr tt) /\
  exists l, trace w' = trace w ++ l /\ Forall not_net l.
Proof.
  intros Hrun. unfold wait, bind, perf_counter, get_rl in Hrun; simpl in Hrun.
  assert (Hsl : forall d w0, fst (asyncio_sleep d w0) = inr tt /\
            exists l, trace (snd (asyncio_sleep d w0)) = trace w0 ++ l /\ Forall not_net l).
  { intros d w0. unfold asyncio_sleep, emit.
    destruct (d <=? 0); (split; [reflexivity|]);
      [exists [EvYield] | exists [EvSleep d]]; (split; [reflexivity|]);
      (constructor; [intros r; discriminate|constructor]). }
  destruct (limit (rate_limit w) <=? Z.of_nat (length (requests (rate_limit w)))).
  - destruct (requests (rate_limit w)) as [|r0 rs].
    + unfold raise in Hrun; inversion Hrun; subst.
      split; [left; reflexivity|]. exists []. split; [simpl; rewrite app_nil_r; reflexivity|constructor].
    + unfold ret in Hrun; simpl in Hrun.
      match type of Hrun with asyncio_sleep ?d ?w0 = _ =>
        destruct (Hsl d w0) as [H1 H2]; rewrite Hrun in H1, H2 end.
      simpl in H1, H2. split; [right; exact H1|exact H2].
  - unfold ret in Hrun; simpl in Hrun.
    match type of Hrun with asyncio_sleep ?d ?w0 = _ =>
      destruct (Hsl d w0) as [H1 H2]; rewrite Hrun in H1, H2 end.
    simpl in H1, H2. split; [right; exact H1|exact H2].
Qed.

(** A call lacking the endpoint's scope never reaches the network: it ends
    with the scope exception, or with the [IndexError] of the pruning pass
    (see C1), and adds only asyncio suspensions to the trace. *)
Theorem missing_scope_no_network (clk : nat -> Z) (base_url : string)
    (transport : Request -> exn + Response) (self : AsynchronousHTTPHandler)
    (method : string) (p : Path) (data : option (list (string * string)))
    (headers : option (gmap string (option string))) (stream : bool)
    (kwargs : list (string * string)) (a : Auth) (w w' : World) (res : exn + string) :
  requires_auth p = true -> client_auth (client self) = Some a ->
  scope_in (scopes (path_scope p)) (scope a) = false ->
  _make_request clk base_url transport self method p data headers stream kwargs w = (res, w') ->
  (res = inl IndexError \/ res = inl (ScopeException (scope_message (path_scope p)))) /\
  exists l, trace w' = trace w ++ l /\ Forall not_net l.
Proof.
  intros Hp Hc Hs Hrun.
  unfold _make_request, prepare_request in Hrun. rewrite Hp, Hc in Hrun.
  rewrite bind_assoc_at, (bind_inr_at _ _ w tt w) in Hrun by reflexivity.
  cbv beta in Hrun. rewrite bind_assoc_at in Hrun.
  destruct (can_request clk w) as [r1 w1] eqn:E1.
  destruct (can_request_outcome _ _ _ _ E1) as [Ht1 [He1|[b He1]]]; subst r1.
  - rewrite (bind_inl_at _ _ _ _ _ E1) in Hrun. inversion Hrun; subst.
    split; [left; reflexivity|].
    exists []. rewrite app_nil_r. split; [exact Ht1|constructor].
  - rewrite (bind_inr_at _ _ _ _ _ E1) in Hrun. cbv beta in Hrun.
    rewrite bind_assoc_at in Hrun.
    assert (Hgate : forall r2 w2, (if negb b then wait clk else ret tt) w1 = (r2, w2) ->
              (r2 = inl IndexError \/ r2 = inr tt) /\
              exists l, trace w2 = trace w ++ l /\ Forall not_net l).
    { intros r2 w2 Hg. destruct b; simpl in Hg.
      - unfold ret in Hg; inversion Hg; subst.
        split; [right; reflexivity|]. exists []. rewrite app_nil_r. split; [exact Ht1|constructor].
      - destruct (wait_outcome _ _ _ _ Hg) as [Hr [l [Hl Hf]]].
        split; [exact Hr|]. exists l. rewrite Hl, Ht1. split; [reflexivity|exact Hf]. }
    destruct ((if negb b then wait clk else ret tt) w1) as [r2 w2] eqn:E2.
    destruct (Hgate _ _ eq_refl) as [[He2|He2] Htr]; subst r2.
    + rewrite (bind_inl_at _ _ _ _ _ E2) in Hrun. inversion Hrun; subst.
      split; [left; reflexivity|exact Htr].
    + rewrite (bind_inr_at _ _ _ _ _ E2) in Hrun. cbv beta in Hrun.
      rewrite bind_assoc_at in Hrun. rewrite Hs in Hrun.
      rewrite (bind_inl_at _ _ w2 (ScopeException (scope_message (path_scope p))) w2)
        in Hrun by reflexivity.
      inversion Hrun; subst. split; [right; reflexivity|exact Htr].
Qed.

Lemma missing_scope_no_network_witness :
  requires_auth osu_me = true /\
  client_auth (client public_only) = Some public_credential /\
  scope_in (scopes (path_scope osu_me)) (scope public_credential) = false /\
  _make_request (fun _ => 0) osu_api ok_response public_only "get" osu_me
    None None false [] (mkWorld 0 (mkRateLimitHandler 1 60 0 []) [])
  = (inl (ScopeException (scope_message (path_scope osu_me))),
     mkWorld 2 (mkRateLimitHandler 1 60 0 []) [EvSleep 1]) /\
  ((inl (ScopeException (scope_message (path_scope osu_me))) : exn + string) = inl IndexError \/
   (inl (ScopeException (scope_message (path_scope osu_me))) : exn + string)
   = inl (ScopeException (scope_message (path_scope osu_me)))) /\
  exists l, trace (mkWorld 2 (mkRateLimitHandler 1 60 0 []) [EvSleep 1])
            = trace (mkWorld 0 (mkRateLimitHandler 1 60 0 []) []) ++ l /\ Forall not_net l.
Proof.
  assert (H1 : requires_auth osu_me = true) by reflexivity.
  assert (H2 : client_auth (client public_only) = Some public_credential) by reflexivity.
  assert (H3 : scope_in (scopes (path_scope osu_me)) (scope public_credential) = false)
    by (vm_compute; reflexivity).
  assert (H4 : _make_request (fun _ => 0) osu_api ok_response public_only "get" osu_me
    None None false [] (mkWorld 0 (mkRateLimitHandler 1 60 0 []) [])
    = (inl (ScopeException (scope_message (path_scope osu_me))),
       mkWorld 2 (mkRateLimitHandler 1 60 0 []) [EvSleep 1])) by reflexivity.
  split; [exact H1|]. split; [exact H2|]. split; [exact H3|]. split; [exact H4|].
  exact (missing_scope_no_network (fun _ => 0) osu_api ok_response public_only "get" osu_me
           None None false [] public_credential _ _ _ H1 H2 H3 H4).
Defined.

(** ** Further properties of [_make_request] *)

Lemma send_request_response (clk : nat -> Z) (transport : Request -> exn + Response)
    (req : Request) (resp : Response) (w : World) :
  transport req = inr resp ->
  send_request clk transport req w =
    ((if (400 <=? status_code resp) && (status_code resp <? 600)
      then inl (HTTPError (status_code resp))
      else match json_body resp with
           | Some j => inr j
           | None => inl JSONDecodeError
           end),
     mkWorld (S (S (tick w)))
       (set_last_request
          (set_requests (rate_limit w) (requests (rate_limit w) ++ [clk (tick w)]))
          (clk (S (tick w))))
       (trace w ++ [EvNet req])).
Proof.
  intros Htr. unfold send_request, call_requests, bind, emit, lift. rewrite Htr.
  unfold request_used, bind, perf_counter, get_rl, put_rl; simpl.
  unfold raise_for_status.
  destruct ((400 <=? status_code resp) && (status_code resp <? 600)); [reflexivity|].
  unfold ret, response_json. destruct (json_body resp); reflexivity.
Qed.

Lemma prepare_request_gate (clk : nat -> Z) (base_url : string)
    (self : AsynchronousHTTPHandler) (method : string) (p : Path)
    (data : option (list (string * string)))
    (headers : option (gmap string (option string))) (stream : bool)
    (kwargs : list (string * string)) (b : bool) (w w1 w2 : World) :
  requires_auth p = false \/ client_auth (client self) <> None ->
  can_request clk w = (inr b, w1) ->
  (if negb b then wait clk else ret tt) w1 = (inr tt, w2) ->
  prepare_request clk base_url self method p data headers stream kwargs w =
  ((if requires_auth p then
      match client_auth (client self) with
      | None => raise AttributeError
      | Some a =>
          if negb (scope_in (scopes (path_scope p)) (scope a))
          then raise (ScopeException (scope_message (path_scope p)))
          else ret tt
      end
    else ret tt) ;;;
   (if bool_decide (is_Some (default ∅ headers !! "self"))
       || bool_decide (is_Some (default ∅ headers !! "requires_auth"))
    then raise TypeError else ret tt) ;;;
   hs <- lift (get_headers (auth self) (requires_auth p) (default ∅ headers)) ;;
   ret (mkRequest method (String.append base_url (path p)) hs (default [] data)
          stream kwargs)) w2.
Proof.
  intros Hauth E1 E2. unfold prepare_request.
  rewrite (bind_inr_at _ _ w tt w).
  2:{ destruct Hauth as [Hp|Hc]; [rewrite Hp; reflexivity|].
      destruct (client_auth (client self)); [|congruence].
      rewrite bool_decide_eq_false_2 by discriminate.
      destruct (requires_auth p); reflexivity. }
  rewrite (bind_inr_at _ _ _ _ _ E1). rewrite (bind_inr_at _ _ _ _ _ E2).
  reflexivity.
Qed.

(** An endpoint without [requires_auth], called with no header named
    [self] or [requires_auth], needs no credential: after the rate gate the
    handler sends exactly one request, with the verb, the URL [base_url +
    path], the caller's non-[None] headers over the JSON base headers and
    no [Authorization] added; it records one usage, and returns the decoded
    body of a non-error response (or the decoding error). *)
Theorem anonymous_request_sent (clk : nat -> Z) (base_url : string)
    (transport : Request -> exn + Response) (self : AsynchronousHTTPHandler)
    (method : string) (p : Path) (data : option (list (string * string)))
    (headers : option (gmap string (option string))) (stream : bool)
    (kwargs : list (string * string)) (b : bool) (w w1 w2 : World) (resp : Response) :
  requires_auth p = false -> no_reserved_keys headers ->
  can_request clk w = (inr b, w1) ->
  (if negb b then wait clk else ret tt) w1 = (inr tt, w2) ->
  transport (anonymous_request base_url method p data (default ∅ headers) stream kwargs)
    = inr resp ->
  ~ (400 <= status_code resp < 600) ->
  _make_request clk base_url transport self method p data headers stream kwargs w =
    (match json_body resp with
     | Some j => inr j
     | None => inl JSONDecodeError
     end,
     mkWorld (S (S (tick w2)))
       (set_last_request
          (set_requests (rate_limit w2) (requests (rate_limit w2) ++ [clk (tick w2)]))
          (clk (S (tick w2))))
       (trace w2 ++ [EvNet (anonymous_request base_url method p data
                              (default ∅ headers) stream kwargs)])).
Proof.
  intros Hp [Hself Hra] E1 E2 Htr Hst.
  assert (Hprep : prepare_request clk base_url self method p data headers stream kwargs w
    = (inr (anonymous_request base_url method p data (default ∅ headers) stream kwargs), w2)).
  { rewrite (prepare_request_gate _ _ _ _ _ _ _ _ _ b w w1 w2) by (auto || left; exact Hp).
    rewrite Hp. unfold bind, get_headers, lift, ret. rewrite Hself, Hra. reflexivity. }
  unfold _make_request. rewrite (bind_inr_at _ _ _ _ _ Hprep).
  rewrite (send_request_response _ _ _ _ _ Htr).
  replace ((400 <=? status_code resp) && (status_code resp <? 600)) with false; [reflexivity|].
  symmetry. apply andb_false_iff.
  destruct (Z.le_gt_cases 400 (status_code resp)).
  - right. apply Z.ltb_ge. lia.
  - left. apply Z.leb_gt. lia.
Qed.

Lemma anonymous_request_sent_witness :
  requires_auth osu_beatmap = false /\ no_reserved_keys None /\
  can_request (fun _ => 0) (mkWorld 0 fresh_limiter []) = (inr true, mkWorld 1 fresh_limiter []) /\
  (if negb true then wait (fun _ => 0) else ret tt) (mkWorld 1 fresh_limiter [])
    = (inr tt, mkWorld 1 fresh_limiter []) /\
  ok_response (anonymous_request osu_api "get" osu_beatmap None (default ∅ None) false [])
    = inr (mkResponse 200 (Some "{}")) /\
  ~ (400 <= status_code (mkResponse 200 (Some "{}")) < 600) /\
  _make_request (fun _ => 0) osu_api ok_response no_credential "get" osu_beatmap
    None None false [] (mkWorld 0 fresh_limiter []) =
    (inr "{}",
     mkWorld 3 (mkRateLimitHandler 1 60 0 [0])
       [EvNet (anonymous_request osu_api "get" osu_beatmap None (default ∅ None) false [])]).
Proof.
  assert (H1 : requires_auth osu_beatmap = false) by reflexivity.
  assert (H2 : no_reserved_keys None) by (split; reflexivity).
  assert (H3 : can_request (fun _ => 0) (mkWorld 0 fresh_limiter [])
               = (inr true, mkWorld 1 fresh_limiter [])) by reflexivity.
  assert (H4 : (if negb true then wait (fun _ => 0) else ret tt) (mkWorld 1 fresh_limiter [])
               = (inr tt, mkWorld 1 fresh_limiter [])) by reflexivity.
  assert (H5 : ok_response (anonymous_request osu_api "get" osu_beatmap None (default ∅ None) false [])
               = inr (mkResponse 200 (Some "{}"))) by reflexivity.
  assert (H6 : ~ (400 <= status_code (mkResponse 200 (Some "{}")) < 600)) by (simpl; lia).
  do 6 (split; [assumption|]).
  exact (anonymous_request_sent (fun _ => 0) osu_api ok_response no_credential "get" osu_beatmap
           None None false [] true _ _ _ _ H1 H2 H3 H4 H5 H6).
Defined.

(** When [requests] itself raises, the exception propagates and
    [request_used] is never reached: the limiter keeps the state it had
    when the request was sent. *)
Theorem transport_error_not_recorded (clk : nat -> Z) (base_url : string)
    (transport : Request -> exn + Response) (self : AsynchronousHTTPHandler)
    (method : string) (p : Path) (data : option (list (string * string)))
    (headers : option (gmap string (option string))) (stream : bool)
    (kwargs : list (string * string)) (w w1 : World) (req : Request) (e : exn) :
  prepare_request clk base_url self method p data headers stream kwargs w = (inr req, w1) ->
  transport req = inl e ->
  _make_request clk base_url transport self method p data headers stream kwargs w
  = (inl e, mkWorld (tick w1) (rate_limit w1) (trace w1 ++ [EvNet req])).
Proof.
  intros Hprep Htr. unfold _make_request. rewrite (bind_inr_at _ _ _ _ _ Hprep).
  unfold send_request, call_requests, bind, emit, lift. rewrite Htr. reflexivity.
Qed.

Lemma transport_error_not_recorded_witness :
  prepare_request (fun _ => 0) osu_api identified "get" osu_me None None false []
    (mkWorld 0 fresh_limiter []) = (inr me_request, mkWorld 1 fresh_limiter []) /\
  unreachable me_request = inl TransportError /\
  _make_request (fun _ => 0) osu_api unreachable identified "get" osu_me None None false []
    (mkWorld 0 fresh_limiter [])
  = (inl TransportError, mkWorld 1 fresh_limiter [EvNet me_request]).
Proof.
  assert (H1 : prepare_request (fun _ => 0) osu_api identified "get" osu_me None None false []
    (mkWorld 0 fresh_limiter []) = (inr me_request, mkWorld 1 fresh_limiter []))
    by reflexivity.
  assert (H2 : unreachable me_request = inl TransportError) by reflexivity.
  split; [exact H1|]. split; [exact H2|].
  exact (transport_error_not_recorded (fun _ => 0) osu_api unreachable identified "get" osu_me
           None None false [] _ _ _ _ H1 H2).
Defined.





(** ** Further properties of the limiter *)

Lemma reset_loop_trims (clk : nat -> Z) (rs : list Z) (w w' : World) (res : exn + unit) :
  requests (rate_limit w) = rs ->
  reset_loop clk rs w = (res, w') ->
  exists removed, rs = removed ++ requests (rate_limit w') /\
    Forall (fun x => exists i, (tick w <= i < tick w')%nat /\ x + 60 < clk i) removed /\
    rate_limit w' = set_requests (rate_limit w) (requests (rate_limit w')) /\
    trace w' = trace w /\ (tick w <= tick w')%nat.
Proof.
  revert w; induction rs as [|r0 rest IH]; intros w Hw Hrun; simpl in Hrun.
  - inversion Hrun; subst. exists []. simpl. rewrite Hw.
    split; [reflexivity|]. split; [constructor|]. split; [|split; reflexivity].
    unfold set_requests. rewrite <- Hw. destruct (rate_limit w'); reflexivity.
  - unfold bind at 1, perf_counter in Hrun; simpl in Hrun.
    destruct (r0 + 60 <? clk (tick w)) eqn:Hst.
    + unfold bind, get_rl, put_rl in Hrun; simpl in Hrun.
      destruct (IH _ (eq_refl : requests (rate_limit (mkWorld (S (tick w))
                  (set_requests (rate_limit w) rest) (trace w))) = rest) Hrun)
        as [removed [Hrs [Hf [Hrl [Htr Htk]]]]]; simpl in *.
      exists (r0 :: removed). split; [simpl; rewrite <- Hrs; reflexivity|].
      split; [|split; [|split; [exact Htr|lia]]].
      * constructor; [exists (tick w); split; [lia|apply Z.ltb_lt; exact Hst]|].
        eapply Forall_impl; [exact Hf|]. intros x [i [Hi Hx]]. exists i; split; [lia|exact Hx].
      * rewrite Hrl. reflexivity.
    + inversion Hrun; subst. exists []. simpl. rewrite Hw.
      split; [reflexivity|]. split; [constructor|]. split; [|split; [reflexivity|lia]].
      unfold set_requests. rewrite <- Hw. destruct (rate_limit w); reflexivity.
Qed.

(** [reset], whether it returns or raises, only removes entries from the
    front of the history, each of them stale ([entry + 60 < now]) at a
    clock reading taken during the pass; the other fields of the limiter
    and the trace are untouched. *)
Theorem reset_trims_prefix (clk : nat -> Z) (w w' : World) (res : exn + unit) :
  reset clk w = (res, w') ->
  exists removed, requests (rate_limit w) = removed ++ requests (rate_limit w') /\
    Forall (fun x => exists i, (tick w <= i < tick w')%nat /\ x + 60 < clk i) removed /\
    rate_limit w' = set_requests (rate_limit w) (requests (rate_limit w')) /\
    trace w' = trace w.
Proof.
  intros Hrun. unfold reset, bind at 1, get_rl in Hrun; simpl in Hrun.
  destruct ((length (requests (rate_limit w)) =? 0)%nat).
  - unfold ret in Hrun; inversion Hrun; subst. exists [].
    split; [reflexivity|]. split; [constructor|]. split; [|reflexivity].
    unfold set_requests. destruct (rate_limit w'); reflexivity.
  - destruct (reset_loop_trims clk _ w w' res eq_refl Hrun)
      as [removed [H1 [H2 [H3 [H4 _]]]]].
    exists removed. auto.
Qed.

Lemma reset_loop_success_fresh (now : Z) (rs : list Z) (w w' : World) :
  requests (rate_limit w) = rs ->
  reset_loop (fun _ => now) rs w = (inr tt, w') ->
  exists r0 rest, requests (rate_limit w') = r0 :: rest /\ now <= r0 + 60.
Proof.
  revert w; induction rs as [|r0 rest IH]; intros w Hw Hrun; simpl in Hrun;
    [discriminate|].
  unfold bind at 1, perf_counter in Hrun; simpl in Hrun.
  destruct (r0 + 60 <? now) eqn:Hst.
  - unfold bind, get_rl, put_rl in Hrun; simpl in Hrun.
    exact (IH _ (eq_refl : requests (rate_limit (mkWorld (S (tick w))
                  (set_requests (rate_limit w) rest) (trace w))) = rest) Hrun).
  - inversion Hrun; subst. exists r0, rest. simpl. split; [exact Hw|].
    apply Z.ltb_ge in Hst; lia.
Qed.

Lemma reset_fixed_point (now : Z) (w : World) :
  requests (rate_limit w) = [] \/
  (exists r0 rest, requests (rate_limit w) = r0 :: rest /\ now <= r0 + 60) ->
  exists k, reset (fun _ => now) w = (inr tt, mkWorld k (rate_limit w) (trace w)).
Proof.
  intros H. unfold reset, bind at 1, get_rl; cbn -[reset_loop length].
  destruct H as [H|[r0 [rest [H Hr]]]]; rewrite H.
  - exists (tick w). destruct w; reflexivity.
  - exists (S (tick w)). simpl. unfold bind, perf_counter; simpl.
    replace (r0 + 60 <? now) with false by (symmetry; apply Z.ltb_ge; lia).
    reflexivity.
Qed.

(** At a fixed time, [can_request] is idempotent: once it has answered, a
    second evaluation gives the same answer and changes nothing more in
    the limiter. *)
Theorem can_request_idempotent (now : Z) (w w1 : World) (b : bool) :
  can_request (fun _ => now) w = (inr b, w1) ->
  exists w2, can_request (fun _ => now) w1 = (inr b, w2) /\ rate_limit w2 = rate_limit w1.
Proof.
  intros Hrun. unfold can_request in Hrun.
  destruct (reset (fun _ => now) w) as [[e|[]] w0] eqn:E0.
  - rewrite (bind_inl_at _ _ _ _ _ E0) in Hrun. discriminate.
  - rewrite (bind_inr_at _ _ _ _ _ E0) in Hrun.
    unfold bind, perf_counter, get_rl, ret in Hrun; simpl in Hrun.
    inversion Hrun; subst b w1; clear Hrun.
    assert (Hfresh : requests (rate_limit w0) = [] \/
      (exists r0 rest, requests (rate_limit w0) = r0 :: rest /\ now <= r0 + 60)).
    { unfold reset, bind at 1, get_rl in E0; simpl in E0.
      destruct ((length (requests (rate_limit w)) =? 0)%nat) eqn:Hl.
      - unfold ret in E0; inversion E0; subst. left.
        apply Nat.eqb_eq, length_zero_iff_nil in Hl. exact Hl.
      - right. exact (reset_loop_success_fresh _ _ _ _ eq_refl E0). }
    destruct (reset_fixed_point now
                (mkWorld (S (tick w0)) (rate_limit w0) (trace w0)) Hfresh) as [k Hk].
    eexists. split.
    + unfold can_request. rewrite (bind_inr_at _ _ _ _ _ Hk). reflexivity.
    + reflexivity.
Qed.

Lemma can_request_idempotent_witness :
  can_request (fun _ => 100) (mkWorld 0 (mkRateLimitHandler 1 2 90 [0; 50; 90]) [])
    = (inr false, mkWorld 3 (mkRateLimitHandler 1 2 90 [50; 90]) []) /\
  exists w2, can_request (fun _ => 100) (mkWorld 3 (mkRateLimitHandler 1 2 90 [50; 90]) [])
    = (inr false, w2) /\
    rate_limit w2 = rate_limit (mkWorld 3 (mkRateLimitHandler 1 2 90 [50; 90]) []).
Proof.
  assert (H : can_request (fun _ => 100) (mkWorld 0 (mkRateLimitHandler 1 2 90 [0; 50; 90]) [])
    = (inr false, mkWorld 3 (mkRateLimitHandler 1 2 90 [50; 90]) [])) by reflexivity.
  split; [exact H|]. exact (can_request_idempotent 100 _ _ false H).
Defined.

Lemma reset_trims_prefix_witness :
  reset (fun i => 100 + Z.of_nat i) (mkWorld 0 (mkRateLimitHandler 1 60 45 [30; 45]) [])
    = (inr tt, mkWorld 2 (mkRateLimitHandler 1 60 45 [45]) []) /\
  exists removed, [30; 45] = removed ++ [45] /\
    Forall (fun x => exists i, (0 <= i < 2)%nat /\ x + 60 < 100 + Z.of_nat i) removed /\
    mkRateLimitHandler 1 60 45 [45] = set_requests (mkRateLimitHandler 1 60 45 [30; 45]) [45] /\
    ([] : list event) = [].
Proof.
  assert (H : reset (fun i => 100 + Z.of_nat i) (mkWorld 0 (mkRateLimitHandler 1 60 45 [30; 45]) [])
    = (inr tt, mkWorld 2 (mkRateLimitHandler 1 60 45 [45]) [])) by reflexivity.
  split; [exact H|].
  exact (reset_trims_prefix (fun i => 100 + Z.of_nat i) _ _ _ H).
Defined.

(** [wait] never changes the limiter (it only reads the clock and
    suspends), and it raises [IndexError] exactly when [limit <= 0] and the
    history is empty ([self.requests[0]] with [len(self.requests) >= self.limit]). *)
Theorem wait_keeps_limiter (clk : nat -> Z) (w w' : World) (res : exn + unit) :
  wait clk w = (res, w') ->
  rate_limit w' = rate_limit w /\
  (res = inl IndexError <-> limit (rate_limit w) <= 0 /\ requests (rate_limit w) = []).
Proof.
  intros Hrun. unfold wait, bind, perf_counter, get_rl in Hrun; simpl in Hrun.
  destruct (limit (rate_limit w) <=? Z.of_nat (length (requests (rate_limit w)))) eqn:Hl.
  - apply Z.leb_le in Hl.
    destruct (requests (rate_limit w)) as [|r0 rs] eqn:E.
    + unfold raise in Hrun; inversion Hrun; subst. simpl in Hl.
      split; [reflexivity|]. split; [intros _; split; [lia|reflexivity]|reflexivity].
    + unfold ret, asyncio_sleep, emit in Hrun; simpl in Hrun.
      destruct (_ <=? 0); inversion Hrun; subst;
        (split; [reflexivity|]); split; (intros [_ Hc] || intros Hc); discriminate.
  - apply Z.leb_gt in Hl.
    unfold ret, asyncio_sleep, emit in Hrun; simpl in Hrun.
    destruct (_ <=? 0); inversion Hrun; subst; (split; [reflexivity|]); split;
      try discriminate; intros [Hc He]; rewrite He in Hl; simpl in Hl; lia.
Qed.

Lemma wait_keeps_limiter_witness :
  wait (fun _ => 0) (mkWorld 0 (mkRateLimitHandler 1 0 0 []) [])
    = (inl IndexError, mkWorld 1 (mkRateLimitHandler 1 0 0 []) []) /\
  rate_limit (mkWorld 1 (mkRateLimitHandler 1 0 0 []) [])
    = rate_limit (mkWorld 0 (mkRateLimitHandler 1 0 0 []) []) /\
  ((inl IndexError : exn + unit) = inl IndexError <->
   limit (rate_limit (mkWorld 0 (mkRateLimitHandler 1 0 0 []) [])) <= 0 /\
   requests (rate_limit (mkWorld 0 (mkRateLimitHandler 1 0 0 []) [])) = []).
Proof.
  assert (H : wait (fun _ => 0) (mkWorld 0 (mkRateLimitHandler 1 0 0 []) [])
    = (inl IndexError, mkWorld 1 (mkRateLimitHandler 1 0 0 []) [])) by reflexivity.
  split; [exact H|]. exact (wait_keeps_limiter (fun _ => 0) _ _ _ H).
Defined.

(** With [limit_per_minute <= 0] the limiter never lets a request through
    without waiting ([can_request] never answers [True]), and from an
    empty history every call of an endpoint that needs no authentication
    fails with [IndexError] in [wait], without any network call and without
    changing the limiter. *)
Theorem nonpositive_limit_blocks (clk : nat -> Z) (base_url : string)
    (transport : Request -> exn + Response) (self : AsynchronousHTTPHandler)
    (method : string) (p : Path) (data : option (list (string * string)))
    (headers : option (gmap string (option string))) (stream : bool)
    (kwargs : list (string * string)) (w : World) :
  limit (rate_limit w) <= 0 ->
  (forall w1, can_request clk w <> (inr true, w1)) /\
  (requests (rate_limit w) = [] -> requires_auth p = false ->
   exists w', _make_request clk base_url transport self method p data headers stream kwargs w
              = (inl IndexError, w') /\ rate_limit w' = rate_limit w /\ trace w' = trace w).
Proof.
  intros Hl. split.
  - intros w1 Hrun. unfold can_request in Hrun.
    destruct (reset clk w) as [[e|[]] w0] eqn:E0.
    + rewrite (bind_inl_at _ _ _ _ _ E0) in Hrun. discriminate.
    + rewrite (bind_inr_at _ _ _ _ _ E0) in Hrun.
      unfold bind, perf_counter, get_rl, ret in Hrun; simpl in Hrun.
      destruct (reset_trims_prefix _ _ _ _ E0) as [removed [_ [_ [Hrl _]]]].
      inversion Hrun as [Hb]. apply andb_true_iff in Hb as [_ Hb].
      apply Z.ltb_lt in Hb. rewrite Hrl in Hb. simpl in Hb. lia.
  - intros He Hp. unfold _make_request, prepare_request. rewrite Hp.
    rewrite bind_assoc_at, (bind_inr_at _ _ w tt w) by reflexivity.
    cbv beta. rewrite bind_assoc_at.
    assert (Hcan : can_request clk w =
      (inr false, mkWorld (S (tick w)) (rate_limit w) (trace w))).
    { unfold can_request, reset, bind, get_rl, perf_counter, ret; simpl.
      rewrite He. simpl. rewrite He. simpl.
      replace (Z.of_nat 0 <? limit (rate_limit w)) with false
        by (symmetry; apply Z.ltb_ge; lia).
      rewrite andb_false_r. reflexivity. }
    rewrite (bind_inr_at _ _ _ _ _ Hcan). cbv beta. rewrite bind_assoc_at.
    assert (Hw : wait clk (mkWorld (S (tick w)) (rate_limit w) (trace w)) =
      (inl IndexError, mkWorld (S (S (tick w))) (rate_limit w) (trace w))).
    { unfold wait, bind, perf_counter, get_rl; simpl. rewrite He. simpl.
      replace (limit (rate_limit w) <=? Z.of_nat 0) with true by (symmetry; apply Z.leb_le; lia).
      reflexivity. }
    eexists. rewrite (bind_inl_at _ _ _ _ _ Hw). split; [reflexivity|]. split; reflexivity.
Qed.

Lemma nonpositive_limit_blocks_witness :
  limit (rate_limit (mkWorld 0 (mkRateLimitHandler 1 0 (-1) []) [])) <= 0 /\
  _make_request (fun _ => 0) osu_api ok_response no_credential "get" osu_beatmap
    None None false [] (mkWorld 0 (mkRateLimitHandler 1 0 (-1) []) [])
  = (inl IndexError, mkWorld 2 (mkRateLimitHandler 1 0 (-1) []) []) /\
  exists w', _make_request (fun _ => 0) osu_api ok_response no_credential "get" osu_beatmap
    None None false [] (mkWorld 0 (mkRateLimitHandler 1 0 (-1) []) []) = (inl IndexError, w') /\
    rate_limit w' = mkRateLimitHandler 1 0 (-1) [] /\ trace w' = [].
Proof.
  assert (Hl : limit (rate_limit (mkWorld 0 (mkRateLimitHandler 1 0 (-1) []) [])) <= 0)
    by (simpl; lia).
  split; [exact Hl|]. split; [reflexivity|].
  exact (proj2 (nonpositive_limit_blocks (fun _ => 0) osu_api ok_response no_credential "get"
           osu_beatmap None None false [] _ Hl) eq_refl eq_refl).
Defined.

(** *** Trace effects, compositionally *)

Lemma quiet_bind {A B} (m : M A) (k : A -> M B) :
  quiet m -> (forall a, quiet (k a)) -> quiet (bind m k).
Proof.
  intros Hm Hk w r w' Hrun. unfold bind in Hrun.
  destruct (m w) as [[e|a] w1] eqn:E.
  - inversion Hrun; subst. exact (Hm _ _ _ E).
  - rewrite (Hk a _ _ _ Hrun). exact (Hm _ _ _ E).
Qed.

Lemma adds_bind_quiet {A B} (P : list event -> Prop) (m : M A) (k : A -> M B) :
  adds P m -> (forall a, quiet (k a)) -> adds P (bind m k).
Proof.
  intros Hm Hk w r w' Hrun. unfold bind in Hrun.
  destruct (m w) as [[e|a] w1] eqn:E.
  - inversion Hrun; subst. exact (Hm _ _ _ E).
  - rewrite (Hk a _ _ _ Hrun). exact (Hm _ _ _ E).
Qed.

Lemma quiet_bind_adds {A B} (P : list event -> Prop) (m : M A) (k : A -> M B) :
  P [] -> quiet m -> (forall a, adds P (k a)) -> adds P (bind m k).
Proof.
  intros H0 Hm Hk w r w' Hrun. unfold bind in Hrun.
  destruct (m w) as [[e|a] w1] eqn:E.
  - inversion Hrun; subst. exists []. rewrite app_nil_r. split; [exact (Hm _ _ _ E)|exact H0].
  - destruct (Hk a _ _ _ Hrun) as [l [Hl HP]]. exists l.
    rewrite Hl, (Hm _ _ _ E). split; [reflexivity|exact HP].
Qed.

Lemma quiet_ret {A} (a : A) : quiet (ret a).
Proof. intros w r w' H. inversion H; reflexivity. Qed.

Lemma quiet_raise {A} (e : exn) : quiet (A := A) (raise e).
Proof. intros w r w' H. inversion H; reflexivity. Qed.

Lemma quiet_lift {A} (x : exn + A) : quiet (lift x).
Proof. intros w r w' H. inversion H; reflexivity. Qed.

Lemma quiet_get_rl : quiet get_rl.
Proof. intros w r w' H. inversion H; reflexivity. Qed.

Lemma quiet_put_rl (rl : RateLimitHandler) : quiet (put_rl rl).
Proof. intros w r w' H. inversion H; reflexivity. Qed.

Lemma quiet_perf_counter (clk : nat -> Z) : quiet (perf_counter clk).
Proof. intros w r w' H. inversion H; reflexivity. Qed.

Create HintDb quiet_db.
#[local] Hint Resolve quiet_bind quiet_ret quiet_raise quiet_lift quiet_get_rl
  quiet_put_rl quiet_perf_counter : quiet_db.

Ltac quiet_step :=
  repeat (apply quiet_bind; [auto with quiet_db|intros ?]);
  auto with quiet_db.

Lemma quiet_reset_loop (clk : nat -> Z) (rs : list Z) : quiet (reset_loop clk rs).
Proof.
  induction rs as [|r0 rest IH]; simpl; [apply quiet_raise|].
  apply quiet_bind; [apply quiet_perf_counter|intros now].
  destruct (r0 + 60 <? now); [|apply quiet_ret].
  apply quiet_bind; [apply quiet_get_rl|intros r].
  apply quiet_bind; [apply quiet_put_rl|intros _]. exact IH.
Qed.

Lemma quiet_can_request (clk : nat -> Z) : quiet (can_request clk).
Proof.
  unfold can_request, reset.
  apply quiet_bind; [|intros _; quiet_step].
  apply quiet_bind; [apply quiet_get_rl|intros r].
  destruct ((length (requests r) =? 0)%nat); [apply quiet_ret|apply quiet_reset_loop].
Qed.

Lemma quiet_request_used (clk : nat -> Z) : quiet (request_used clk).
Proof. unfold request_used. quiet_step. Qed.

Lemma gate_trace_nil : gate_trace [].
Proof. split; [simpl; lia|constructor]. Qed.

Lemma adds_wait (clk : nat -> Z) : adds gate_trace (wait clk).
Proof.
  unfold wait.
  apply quiet_bind_adds; [exact gate_trace_nil|apply quiet_perf_counter|intros t].
  apply quiet_bind_adds; [exact gate_trace_nil|apply quiet_get_rl|intros r].
  apply quiet_bind_adds; [exact gate_trace_nil| |intros n].
  - destruct (limit r <=? Z.of_nat (length (requests r))); [|apply quiet_ret].
    destruct (requests r); [apply quiet_raise|quiet_step].
  - intros w res w' Hrun. unfold asyncio_sleep, emit in Hrun.
    destruct (n <=? 0); inversion Hrun; subst; simpl;
      [exists [EvYield] | exists [EvSleep n]]; (split; [reflexivity|]);
      (split; [simpl; lia|]); (constructor; [|constructor]);
      [left; reflexivity | right; eexists; reflexivity].
Qed.

Lemma adds_prepare_request (clk : nat -> Z) (base_url : string)
    (self : AsynchronousHTTPHandler) (method : string) (p : Path)
    (data : option (list (string * string)))
    (headers : option (gmap string (option string))) (stream : bool)
    (kwargs : list (string * string)) :
  adds gate_trace (prepare_request clk base_url self method p data headers stream kwargs).
Proof.
  unfold prepare_request.
  apply quiet_bind_adds; [exact gate_trace_nil| |intros _].
  { destruct (requires_auth p && _); auto with quiet_db. }
  apply quiet_bind_adds; [exact gate_trace_nil|apply quiet_can_request|intros ready].
  apply adds_bind_quiet.
  { destruct (negb ready); [apply adds_wait|].
    intros w r w' H. inversion H; subst. exists []. rewrite app_nil_r.
    split; [reflexivity|exact gate_trace_nil]. }
  intros _. apply quiet_bind; [|intros _].
  { destruct (requires_auth p); [|apply quiet_ret].
    destruct (client_auth (client self)); [|apply quiet_raise].
    destruct (negb _); auto with quiet_db. }
  apply quiet_bind; [destruct (_ || _); auto with quiet_db|intros _].
  quiet_step.
Qed.

Lemma adds_send_request (clk : nat -> Z) (transport : Request -> exn + Response)
    (req : Request) :
  adds (fun l => l = [EvNet req]) (send_request clk transport req).
Proof.
  unfold send_request, call_requests.
  apply adds_bind_quiet.
  - apply adds_bind_quiet; [|intros _; apply quiet_lift].
    intros w r w' H. inversion H; subst. exists [EvNet req]. split; reflexivity.
  - intros resp. apply quiet_bind; [apply quiet_request_used|intros _].
    apply quiet_bind; [unfold raise_for_status; destruct (_ && _); auto with quiet_db|intros _].
    unfold response_json. destruct (json_body resp); auto with quiet_db.
Qed.

(** Every invocation of [_make_request], whatever its inputs and its
    outcome, appends to the trace at most one asyncio suspension of the
    rate gate, followed by at most one network call, in this order; when it
    returns a value, the network call was made. *)
Theorem make_request_trace_shape (clk : nat -> Z) (base_url : string)
    (transport : Request -> exn + Response) (self : AsynchronousHTTPHandler)
    (method : string) (p : Path) (data : option (list (string * string)))
    (headers : option (gmap string (option string))) (stream : bool)
    (kwargs : list (string * string)) (w w' : World) (res : exn + string) :
  _make_request clk base_url transport self method p data headers stream kwargs w = (res, w') ->
  exists g n, trace w' = trace w ++ g ++ n /\ gate_trace g /\
    (n = [] \/ exists req, n = [EvNet req]) /\
    (forall s, res = inr s -> n <> []).
Proof.
  intros Hrun. unfold _make_request, bind in Hrun.
  destruct (prepare_request clk base_url self method p data headers stream kwargs w)
    as [[e|req] w1] eqn:E.
  - inversion Hrun; subst.
    destruct (adds_prepare_request _ _ _ _ _ _ _ _ _ _ _ _ E) as [g [Hg Hgt]].
    exists g, []. rewrite app_nil_r.
    split; [exact Hg|]. split; [exact Hgt|]. split; [left; reflexivity|].
    intros s Hs; discriminate.
  - destruct (adds_prepare_request _ _ _ _ _ _ _ _ _ _ _ _ E) as [g [Hg Hgt]].
    destruct (adds_send_request _ _ _ _ _ _ Hrun) as [n [Hn Hnet]]. subst n.
    exists g, [EvNet req]. rewrite Hn, Hg, app_assoc.
    split; [reflexivity|]. split; [exact Hgt|]. split; [right; eexists; reflexivity|].
    intros _ _; discriminate.
Qed.

Lemma make_request_trace_shape_witness :
  _make_request (fun _ => 0) osu_api ok_response no_credential "get" osu_beatmap
    None None false [] (mkWorld 0 (mkRateLimitHandler 1 60 0 []) [])
  = (inr "{}", mkWorld 4 (mkRateLimitHandler 1 60 0 [0]) [EvSleep 1;
       EvNet (anonymous_request osu_api "get" osu_beatmap None ∅ false [])]) /\
  exists g n, [EvSleep 1; EvNet (anonymous_request osu_api "get" osu_beatmap None ∅ false [])]
              = [] ++ g ++ n /\ gate_trace g /\
    (n = [] \/ exists req, n = [EvNet req]) /\
    (forall s, @inr exn string "{}" = inr s -> n <> []).
Proof.
  assert (H : _make_request (fun _ => 0) osu_api ok_response no_credential "get" osu_beatmap
    None None false [] (mkWorld 0 (mkRateLimitHandler 1 60 0 []) [])
    = (inr "{}", mkWorld 4 (mkRateLimitHandler 1 60 0 [0]) [EvSleep 1;
       EvNet (anonymous_request osu_api "get" osu_beatmap None ∅ false [])])) by reflexivity.
  split; [exact H|].
  exact (make_request_trace_shape (fun _ => 0) osu_api ok_response no_credential "get"
           osu_beatmap None None false [] _ _ _ H).
Defined.


